(** * logtweaks: colouring stream handler and indenting logger adapter

    A shallow embedding of [logtweaks.py] and the properties of its two
    components, [PrettyStreamHandler] and [IndentingLoggerAdapter], and of
    [apply_mapping_arg_fix] with the constructor it installs.

    Conventions of the embedding:
    - a Python [str] is a list of Unicode code points ([codepoint := N]);
    - a Python [int] is a [Z];
    - a [dict] is a [gmap];
    - a call that can raise returns a [result];
    - an object whose attributes are assigned by a method is a record, and
      the method returns the updated record. *)

From Stdlib Require Import ZArith NArith Ascii String Lia.
From stdpp Require Import base option list gmap.

Local Open Scope Z_scope.

(** ** Python values *)

Definition codepoint := N.
Definition str := list codepoint.

(** A literal of the source, read one character per code point. *)
Definition lit (s : String.string) : str :=
  N_of_ascii <$> String.list_ascii_of_string s.
Arguments lit s%_string.

Definition LF : codepoint := 10%N.
Definition CR : codepoint := 13%N.
Definition ESC : codepoint := 27%N.

(** [str.__mul__]: [amount] copies of [s], none when [amount <= 0]. *)
Definition str_mul (s : str) (amount : Z) : str :=
  concat (replicate (Z.to_nat amount) s).

(** [sep.join(parts)]. *)
Fixpoint join (sep : str) (parts : list str) : str :=
  match parts with
  | [] => []
  | [p] => p
  | p :: ps => p ++ sep ++ join sep ps
  end.

(** The line boundaries of [str.splitlines] on text: LF, VT, FF, CR, FS,
    GS, RS, NEL, LS and PS.  (On a byte string only LF and CR are; the
    proofs below use no more of this table than that CR is a boundary.) *)
Definition is_linebreak (c : codepoint) : bool :=
  match c with
  | 10 | 11 | 12 | 13 | 28 | 29 | 30 | 133 | 8232 | 8233 => true
  | _ => false
  end%N.

(** [str.splitlines(keepends)], as the scanning loop of the interpreter:
    [line] holds the characters read since the last boundary, a CR directly
    followed by LF is one boundary, and a boundary closes the line (with
    the boundary kept when [keepends]).  Text after the last boundary is a
    final line; there is no empty final line. *)
Fixpoint splitlines_from (keepends : bool) (line : str) (s : str) : list str :=
  match s with
  | [] => match line with [] => [] | _ => [line] end
  | c :: rest =>
    if is_linebreak c then
      match rest with
      | c' :: rest' =>
        if (c =? CR)%N && (c' =? LF)%N
        then (line ++ (if keepends then [c; c'] else []))
               :: splitlines_from keepends [] rest'
        else (line ++ (if keepends then [c] else []))
               :: splitlines_from keepends [] rest
      | [] => [line ++ (if keepends then [c] else [])]
      end
    else splitlines_from keepends (line ++ [c]) rest
  end.

Definition splitlines (keepends : bool) (s : str) : list str :=
  splitlines_from keepends [] s.

(** ** Results of calls that can raise *)

Inductive exn : Type :=
  | AttributeError (attr : String.string)
  | FormatError (detail : String.string).
Arguments AttributeError attr%_string.
Arguments FormatError detail%_string.

Inductive result (A : Type) : Type :=
  | Ok (a : A)
  | Raise (e : exn).
Arguments Ok {A} a.
Arguments Raise {A} e.

#[global] Instance result_ret : MRet result := fun A a => Ok a.
#[global] Instance result_bind : MBind result := fun A B k r =>
  match r with
  | Ok a => k a
  | Raise e => Raise e
  end.

#[global] Instance result_fmap : FMap result := fun A B f r =>
  match r with
  | Ok a => Ok (f a)
  | Raise e => Raise e
  end.

(** ** The host logging library, as far as the module uses it *)

Module logging.

Definition CRITICAL : Z := 50.
Definition ERROR : Z := 40.
Definition WARNING : Z := 30.
Definition INFO : Z := 20.
Definition DEBUG : Z := 10.

(** The fields of a log record the module reads: its level and what is
    rendered. *)
Record LogRecord := {
  levelno : Z;
  levelname : str;
  msg : str
}.

(** A formatter renders a record, or raises. *)
Definition Formatter := LogRecord -> result str.

(** An output stream: [isatty] is [None] for an object that has no such
    method, and otherwise what the method answers. *)
Record Stream := {
  isatty : option bool
}.

(** The process environment the library reads: [sys.stderr] and the
    module-level default formatter. *)
Record Env := {
  sys_stderr : Stream;
  _defaultFormatter : Formatter
}.

(** [logging.StreamHandler]: the stream it writes to and the formatter
    set on it, if any. *)
Record StreamHandler := {
  stream : Stream;
  formatter : option Formatter
}.

(** [StreamHandler.__init__(stream)]: [sys.stderr] when no stream is
    given; no formatter yet. *)
Definition StreamHandler_init (env : Env) (stream : option Stream) : StreamHandler :=
  {| stream := default (sys_stderr env) stream; formatter := None |}.

(** [Handler.format(record)]: the handler's formatter, or the default
    one. *)
Definition Handler_format (env : Env) (h : StreamHandler) (record : LogRecord)
  : result str :=
  default (_defaultFormatter env) (formatter h) record.

(** [Handler.setFormatter(fmt)]. *)
Definition setFormatter (h : StreamHandler) (fmt : Formatter) : StreamHandler :=
  {| stream := stream h; formatter := Some fmt |}.

(** A logger, as the adapter sees it: which levels it is enabled for. *)
Record Logger := {
  isEnabledFor : Z -> bool
}.

(** What reaches the wrapped logger from one logging call on an adapter:
    [logger.log(level, msg, *args, **kwargs)]. *)
Record LogCall (A K : Type) := {
  call_level : Z;
  call_msg : str;
  call_args : A;
  call_kwargs : K
}.
Arguments call_level {A K} _.
Arguments call_msg {A K} _.
Arguments call_args {A K} _.
Arguments call_kwargs {A K} _.

(** [LoggerAdapter.log(level, msg, *args, **kwargs)], over the [process]
    method of the adapter's class: nothing is logged when the level is
    not enabled; otherwise the processed message and options go to the
    wrapped logger at the caller's level. *)
Definition LoggerAdapter_log {A K : Type} (process : str -> K -> str * K)
    (logger : Logger) (level : Z) (msg : str) (args : A) (kwargs : K)
  : option (LogCall A K) :=
  if isEnabledFor logger level then
    let '(msg', kwargs') := process msg kwargs in
    Some {| call_level := level; call_msg := msg';
            call_args := args; call_kwargs := kwargs' |}
  else None.

End logging.

(** ** [class PrettyStreamHandler(logging.StreamHandler)] *)

Module PrettyStreamHandler.
Import logging.

(** An instance: the inherited handler and the [colour] attribute. *)
Record t := {
  super : StreamHandler;
  colour : bool
}.

(** Mapping from logging levels to ANSI colours. *)
Definition COLOURS : gmap Z str :=
  {[ DEBUG := ESC :: lit "[36m";
     WARNING := ESC :: lit "[33m";
     ERROR := ESC :: lit "[31m";
     CRITICAL := ESC :: lit "[31;7m" ]}.

(** ANSI code for resetting the terminal to default colour. *)
Definition COLOUR_END : str := ESC :: lit "[0m".

(** [self.stream.isatty()]: an [AttributeError] when the stream has no
    such method. *)
Definition call_isatty (s : Stream) : result bool :=
  match isatty s with
  | Some b => Ok b
  | None => Raise (AttributeError "isatty")
  end.

(** [__init__(self, stream=None, colour=None)]. *)
Definition __init__ (env : Env) (stream : option Stream) (colour : option bool)
  : result t :=
  let self := StreamHandler_init env stream in
  match colour with
  | None =>
    c ← call_isatty (logging.stream self);
    mret {| super := self; colour := c |}
  | Some c => mret {| super := self; colour := c |}
  end.

(** The inherited [setFormatter(fmt)]. *)
Definition setFormatter (self : t) (fmt : Formatter) : t :=
  {| super := logging.setFormatter (super self) fmt; colour := colour self |}.

(** [dict.get(key, default)]. *)
Definition get (d : gmap Z str) (key : Z) (dflt : str) : str :=
  default dflt (d !! key).

(** [format(self, record)]. *)
Definition format (env : Env) (self : t) (record : LogRecord) : result str :=
  msg ← Handler_format env (super self) record;
  if colour self then
    let colour := get COLOURS (levelno record) [] in
    mret (colour ++ msg ++ COLOUR_END)
  else
    mret msg.

End PrettyStreamHandler.

(** ** [indent(data, amount=1, string='  ')] *)

Definition indent_default_amount : Z := 1.
Definition indent_default_string : str := lit "  ".

Definition indent (data : str) (amount : Z) (string : str) : str :=
  join [] ((fun line => str_mul string amount ++ line) <$> splitlines true data).

(** ** [class IndentingLoggerAdapter(logging.LoggerAdapter)] *)

Module IndentingLoggerAdapter.
Import logging.

(** The module-level [indent], which the method of the same name hides
    below. *)
Local Abbreviation indent_text := indent (only parsing).

(** An instance: the wrapped logger and the indent level.  ([extra] is
    [None] from the constructor on and is never read.) *)
Record t := {
  logger : Logger;
  _indent_level : Z
}.

(** [__init__(self, log)]. *)
Definition __init__ (log : Logger) : t :=
  {| logger := log; _indent_level := 0 |}.

(** [indent(self)]. *)
Definition indent (self : t) : t :=
  {| logger := logger self; _indent_level := _indent_level self + 1 |}.

(** [outdent(self)]. *)
Definition outdent (self : t) : t :=
  {| logger := logger self;
     _indent_level := Z.max 0 (_indent_level self - 1) |}.

(** [process(self, msg, kwargs)]; the adapter itself is not changed. *)
Definition process {K : Type} (self : t) (msg : str) (kwargs : K) : str * K :=
  (indent_text msg (_indent_level self) indent_default_string, kwargs).

(** The inherited [log(level, msg, *args, **kwargs)] and the severity
    methods that go through it. *)
Definition log {A K : Type} (self : t) (level : Z) (msg : str) (args : A)
    (kwargs : K) : option (LogCall A K) :=
  LoggerAdapter_log (process self) (logger self) level msg args kwargs.

Definition debug {A K : Type} (self : t) := @log A K self DEBUG.
Definition info {A K : Type} (self : t) := @log A K self INFO.
Definition warning {A K : Type} (self : t) := @log A K self WARNING.
Definition error {A K : Type} (self : t) := @log A K self ERROR.
Definition critical {A K : Type} (self : t) := @log A K self CRITICAL.

(** One use of an adapter by its owner. *)
Inductive op : Type :=
  | OpIndent
  | OpOutdent
  | OpProcess (msg : str).

(** The adapter after one operation; [process] assigns no attribute. *)
Definition step (self : t) (o : op) : t :=
  match o with
  | OpIndent => indent self
  | OpOutdent => outdent self
  | OpProcess msg => let _ := process self msg () in self
  end.

Definition run (self : t) (ops : list op) : t := foldl step self ops.

End IndentingLoggerAdapter.

(** ** Lines of a message, as the specification words them

    A message is a sequence of lines.  A line is a body without line
    boundaries followed by its line break; only the last line may lack the
    line break, and then its body is not empty.  CR LF is one line break:
    a line that ends in a lone CR is not followed by a line that starts
    with LF. *)

Definition no_break (body : str) : Prop :=
  Forall (fun c => is_linebreak c = false) body.

Inductive line_end : str -> Prop :=
  | end_crlf : line_end [CR; LF]
  | end_one c : is_linebreak c = true -> line_end [c].

Inductive lines : str -> list str -> Prop :=
  | lines_nil : lines [] []
  | lines_last body :
      body <> [] -> no_break body -> lines body [body]
  | lines_cons body e rest ls :
      no_break body -> line_end e ->
      (e = [CR] -> head rest <> Some LF) ->
      lines rest ls ->
      lines (body ++ e ++ rest) ((body ++ e) :: ls).

(** [d] copies of the indent unit. *)
Fixpoint copies (d : nat) (unit : str) : str :=
  match d with
  | O => []
  | S d' => unit ++ copies d' unit
  end.

Definition two_spaces : str := [32; 32]%N.

(** [out] is [msg] with [d] copies of the two-space unit put before every
    line, everything else kept as it is. *)
Definition indented (d : nat) (msg out : str) : Prop :=
  exists ls, lines msg ls /\
    out = concat ((fun line => copies d two_spaces ++ line) <$> ls).

(** ** Concrete streams, records, handlers and adapters *)

(** A formatter for ['[%(levelname)s] %(message)s']. *)
Definition bracket_formatter : logging.Formatter :=
  fun record =>
    Ok (lit "[" ++ logging.levelname record ++ lit "] " ++ logging.msg record).

(** The library's default formatter renders the message alone. *)
Definition message_formatter : logging.Formatter :=
  fun record => Ok (logging.msg record).

Definition tty : logging.Stream := {| logging.isatty := Some true |}.
Definition regular_file : logging.Stream := {| logging.isatty := Some false |}.
(** An object with [write] but no [isatty]. *)
Definition bare_writer : logging.Stream := {| logging.isatty := None |}.

Definition tty_env : logging.Env :=
  {| logging.sys_stderr := tty; logging._defaultFormatter := message_formatter |}.

Definition boom_record : logging.LogRecord :=
  {| logging.levelno := logging.ERROR;
     logging.levelname := lit "ERROR";
     logging.msg := lit "boom" |}.
Definition note_record : logging.LogRecord :=
  {| logging.levelno := logging.INFO;
     logging.levelname := lit "INFO";
     logging.msg := lit "note" |}.

Definition handler_on (s : logging.Stream) (colour : bool) : PrettyStreamHandler.t :=
  PrettyStreamHandler.setFormatter
    {| PrettyStreamHandler.super := logging.StreamHandler_init tty_env (Some s);
       PrettyStreamHandler.colour := colour |}
    bracket_formatter.

Definition forced_colour : PrettyStreamHandler.t := handler_on regular_file true.
Definition forced_plain : PrettyStreamHandler.t := handler_on tty false.
Definition auto_on_file : PrettyStreamHandler.t := handler_on regular_file false.

Definition any_logger : logging.Logger :=
  {| logging.isEnabledFor := fun l => bool_decide (logging.INFO <= l) |}.

Definition fresh : IndentingLoggerAdapter.t :=
  IndentingLoggerAdapter.__init__ any_logger.

Definition two_lines : str := lit "line1" ++ [LF] ++ lit "line2".

(** ** Sequences of adapter operations *)

(** Properly nested use: every [indent()] is closed by an [outdent()] of
    its own, and messages are processed anywhere. *)
Inductive balanced : list IndentingLoggerAdapter.op -> Prop :=
  | balanced_nil : balanced []
  | balanced_process msg ops :
      balanced ops -> balanced (IndentingLoggerAdapter.OpProcess msg :: ops)
  | balanced_scope inner rest :
      balanced inner -> balanced rest ->
      balanced (IndentingLoggerAdapter.OpIndent ::
                inner ++ IndentingLoggerAdapter.OpOutdent :: rest).




(** ** [apply_mapping_arg_fix] and the constructor it installs *)

Module mapping_arg_fix.

(** *** The interpreter state [apply_mapping_arg_fix] reads and writes *)

(** Python 2 orders a tuple and a string by the names of their types;
    Python 3 refuses to order them. *)
Inductive flavour : Type := Python2 | Python3.

(** What [sys.version] can hold for the comparison: it is a string; a
    tuple of integers is what the assertion compares it with. *)
Inductive value : Type :=
  | VStr (s : str)
  | VTuple (t : list Z).

Inductive fix_exn : Type :=
  | AssertionError (message : String.string)
  | TypeError (message : String.string).
Arguments AssertionError message%_string.
Arguments TypeError message%_string.

(** What [logging.LogRecord.__init__] is bound to. *)
Inductive init_impl : Type := Original | Patched.

Record Interp := {
  interp_flavour : flavour;
  (** [__debug__]: false under [-O], where [assert] statements are dropped. *)
  interp_debug : bool;
  sys_version : value;
  LogRecord_init : init_impl
}.

(** The order of tuples of integers: by the first place that differs, a
    proper prefix first. *)
Fixpoint tuple_compare (a b : list Z) : comparison :=
  match a, b with
  | [], [] => Eq
  | [], _ :: _ => Lt
  | _ :: _, [] => Gt
  | x :: a', y :: b' =>
    match x ?= y with
    | Eq => tuple_compare a' b'
    | c => c
    end
  end.

(** [t <= v] for a tuple [t]. *)
Definition tuple_le (fl : flavour) (t : list Z) (v : value) : fix_exn + bool :=
  match v with
  | VTuple t' =>
    inr (match tuple_compare t t' with Gt => false | _ => true end)
  | VStr _ =>
    match fl with
    | Python2 => inr false
    | Python3 =>
      inl (TypeError "'<=' not supported between instances of 'tuple' and 'str'")
    end
  end.

(** [v < t] for a tuple [t]. *)
Definition lt_tuple (fl : flavour) (v : value) (t : list Z) : fix_exn + bool :=
  match v with
  | VTuple t' =>
    inr (match tuple_compare t' t with Lt => true | _ => false end)
  | VStr _ =>
    match fl with
    | Python2 => inr true
    | Python3 =>
      inl (TypeError "'<' not supported between instances of 'str' and 'tuple'")
    end
  end.

(** [(2, 7, 0) <= sys.version < (2, 7, 0)]: the second comparison is made
    only when the first holds. *)
Definition version_check (fl : flavour) (v : value) : fix_exn + bool :=
  match tuple_le fl [2; 7; 0] v with
  | inl e => inl e
  | inr false => inr false
  | inr true => lt_tuple fl v [2; 7; 0]
  end.

Definition set_LogRecord_init (st : Interp) (impl : init_impl) : Interp :=
  {| interp_flavour := interp_flavour st;
     interp_debug := interp_debug st;
     sys_version := sys_version st;
     LogRecord_init := impl |}.

(** [apply_mapping_arg_fix()]. *)
Definition apply_mapping_arg_fix (st : Interp) : fix_exn + Interp :=
  if interp_debug st then
    match version_check (interp_flavour st) (sys_version st) with
    | inl e => inl e
    | inr false =>
      inl (AssertionError "Fix only works for Python 2.7 (fixed in 2.7.7)")
    | inr true =>
      match LogRecord_init st with
      | Patched => inl (AssertionError "Fix already applied")
      | Original => inr (set_LogRecord_init st Patched)
      end
    end
  else inr (set_LogRecord_init st Patched).

(** *** The constructors *)

(** An object given as a logging argument: which object it is, whether it
    is a [dict], another [Mapping] or no mapping, and its truth value. *)
Inductive kind : Type := Dict | OtherMapping | NotMapping.

Record object := {
  object_id : nat;
  object_kind : kind;
  object_truth : bool
}.

Definition isinstance_dict (o : object) : bool :=
  match object_kind o with Dict => true | _ => false end.

Definition isinstance_Mapping (o : object) : bool :=
  match object_kind o with Dict | OtherMapping => true | NotMapping => false end.

(** [self.args]: the tuple of arguments, or the one object taken out of
    it. *)
Inductive record_args : Type :=
  | ArgsTuple (args : list object)
  | ArgsObject (o : object).

(** A log record under construction: [args], and the other attributes the
    original constructor sets (of a type [F] left open). *)
Record LogRecord (F : Type) := {
  fields : F;
  args : record_args
}.
Arguments fields {F} _.
Arguments args {F} _.

(** [args and len(args) == 1 and isinstance(args[0], cls) and args[0]],
    for a tuple [args]. *)
Definition sole_mapping (isinstance_cls : object -> bool) (args : list object) : bool :=
  negb (Nat.eqb (length args) 0) && Nat.eqb (length args) 1 &&
  match head args with
  | Some a0 => isinstance_cls a0 && object_truth a0
  | None => false
  end.

(** [_old_LogRecord_init]: the constructor of the library, with its check
    for a sole [dict] argument. *)
Definition _old_LogRecord_init {F} (other : F) (args : list object) : LogRecord F :=
  {| fields := other;
     args := if sole_mapping isinstance_dict args
             then match head args with
                  | Some a0 => ArgsObject a0
                  | None => ArgsTuple args
                  end
             else ArgsTuple args |}.

(** [self.args is args[0]]: a tuple is not one of its own items. *)
Definition args_is (self_args : record_args) (a0 : object) : bool :=
  match self_args with
  | ArgsTuple _ => false
  | ArgsObject o => Nat.eqb (object_id o) (object_id a0)
  end.

(** [_new_LogRecord_init]. *)
Definition _new_LogRecord_init {F} (other : F) (args : list object) : LogRecord F :=
  let self := _old_LogRecord_init other args in
  if sole_mapping isinstance_Mapping args then
    match head args with
    | Some a0 =>
      if negb (args_is (mapping_arg_fix.args self) a0)
      then {| fields := fields self; args := ArgsObject a0 |}
      else self
    | None => self
    end
  else self.

End mapping_arg_fix.

(** ** Concrete runs *)

Example splitlines_keepends :
  splitlines true (lit "ab" ++ [CR; LF] ++ lit "c" ++ [LF; LF] ++ lit "d" ++ [CR])
  = [lit "ab" ++ [CR; LF]; lit "c" ++ [LF]; [LF]; lit "d" ++ [CR]].
Proof. reflexivity. Qed.

Example splitlines_drop_ends :
  splitlines false (lit "ab" ++ [CR; LF] ++ lit "c" ++ [LF; LF] ++ lit "d")
  = [lit "ab"; lit "c"; []; lit "d"].
Proof. reflexivity. Qed.

Example indent_two_lines :
  indent two_lines 1 indent_default_string = lit "  line1" ++ [LF] ++ lit "  line2".
Proof. reflexivity. Qed.

Example indent_negative_amount :
  indent two_lines (-2) indent_default_string = two_lines.
Proof. reflexivity. Qed.

(** ** Strings *)

Lemma join_empty_sep (parts : list str) : join [] parts = concat parts.
Proof.
  induction parts as [|p ps IH]; [reflexivity|].
  destruct ps as [|q ps]; simpl in *.
  - by rewrite app_nil_r.
  - by rewrite IH.
Qed.

Lemma str_mul_copies (s : str) (d : nat) : str_mul s (Z.of_nat d) = copies d s.
Proof.
  unfold str_mul. rewrite Nat2Z.id.
  induction d as [|d IH]; simpl; [reflexivity | by rewrite IH].
Qed.

Lemma str_mul_nonpos (s : str) (amount : Z) : amount <= 0 -> str_mul s amount = [].
Proof.
  intros Hle. unfold str_mul.
  replace (Z.to_nat amount) with O by lia. reflexivity.
Qed.

(** ** [splitlines] computes the lines of a message *)

Lemma splitlines_from_body keepends (body : str) :
  no_break body ->
  forall line s,
    splitlines_from keepends line (body ++ s)
    = splitlines_from keepends (line ++ body) s.
Proof.
  induction 1 as [|c body Hc _ IH]; intros line s; simpl.
  - by rewrite app_nil_r.
  - rewrite Hc, IH. by rewrite <- app_assoc.
Qed.

(** By induction on a bound of the text left to scan: after CR LF the scan
    goes on two characters further. *)
Lemma splitlines_from_lines (n : nat) :
  forall s line, (length s <= n)%nat -> no_break line ->
    lines (line ++ s) (splitlines_from true line s).
Proof.
  induction n as [|n IH]; intros s line Hlen Hline.
  - destruct s; [|simpl in Hlen; lia].
    rewrite app_nil_r. simpl. destruct line eqn:E; [constructor|].
    rewrite <- E in *. by apply lines_last; [subst|].
  - destruct s as [|c rest].
    { apply IH; [simpl; lia | done]. }
    simpl in Hlen. simpl. destruct (is_linebreak c) eqn:Hc.
    + destruct rest as [|c' rest'].
      * apply (lines_cons line [c] [] []); [done | by constructor | done | constructor].
      * destruct ((c =? CR)%N && (c' =? LF)%N) eqn:Hcrlf.
        -- apply andb_true_iff in Hcrlf as [->%N.eqb_eq ->%N.eqb_eq].
           apply (lines_cons line [CR; LF] rest'); [done | constructor | done |].
           apply (IH rest' []); [simpl in Hlen; lia | constructor].
        -- apply (lines_cons line [c] (c' :: rest')); [done | by constructor | |].
           ++ intros [= ->] [= ->]. discriminate Hcrlf.
           ++ apply (IH (c' :: rest') []); [simpl in *; lia | constructor].
    + replace (line ++ c :: rest) with ((line ++ [c]) ++ rest)
        by (by rewrite <- app_assoc).
      apply IH; [lia|]. apply Forall_app. split; [done | by repeat constructor].
Qed.

Lemma splitlines_lines (msg : str) : lines msg (splitlines true msg).
Proof.
  apply (splitlines_from_lines (length msg) msg []); [lia | constructor].
Qed.

(** A message has one sequence of lines only. *)
Lemma lines_functional (msg : str) (ls : list str) :
  lines msg ls -> ls = splitlines true msg.
Proof.
  unfold splitlines. induction 1 as [|body Hne Hbody|body e rest ls Hbody He Hcr _ IH].
  - reflexivity.
  - rewrite <- (app_nil_r body) at 2.
    rewrite splitlines_from_body by done. simpl. by destruct body.
  - rewrite splitlines_from_body by done. simpl.
    destruct He as [|c Hc]; simpl.
    + by rewrite IH.
    + rewrite Hc. destruct rest as [|c' rest'].
      * by rewrite IH.
      * destruct ((c =? CR)%N && (c' =? LF)%N) eqn:Hcrlf; [|by rewrite IH].
        apply andb_true_iff in Hcrlf as [->%N.eqb_eq ->%N.eqb_eq].
        by destruct Hcr.
Qed.

Lemma lines_concat (msg : str) (ls : list str) : lines msg ls -> concat ls = msg.
Proof.
  induction 1 as [|body _ _|body e rest ls _ _ _ _ IH]; simpl.
  - reflexivity.
  - by rewrite app_nil_r.
  - by rewrite IH, <- app_assoc.
Qed.

Lemma lines_nonempty (msg : str) (ls : list str) :
  lines msg ls -> Forall (fun line => line <> []) ls.
Proof.
  induction 1 as [|body Hne _|body e rest ls _ He _ _ IH].
  - constructor.
  - by repeat constructor.
  - constructor; [|done]. destruct He; by destruct body.
Qed.

Lemma indented_functional (d : nat) (msg out out' : str) :
  indented d msg out -> indented d msg out' -> out = out'.
Proof.
  intros (ls & Hls & ->) (ls' & Hls' & ->).
  by rewrite (lines_functional _ _ Hls), (lines_functional _ _ Hls').
Qed.

Lemma indent_indented (d : nat) (msg : str) :
  indented d msg (indent msg (Z.of_nat d) indent_default_string).
Proof.
  exists (splitlines true msg). split; [apply splitlines_lines|].
  unfold indent. by rewrite join_empty_sep, str_mul_copies.
Qed.

(** ** The colouring handler *)

Section Handler.
Import logging PrettyStreamHandler.

Lemma init_override env stream (c : bool) :
  __init__ env stream (Some c)
  = Ok {| super := StreamHandler_init env stream; colour := c |}.
Proof. reflexivity. Qed.

Lemma init_auto env stream (b : bool) :
  isatty (default (sys_stderr env) stream) = Some b ->
  __init__ env stream None
  = Ok {| super := StreamHandler_init env stream; colour := b |}.
Proof. intros Hb. unfold __init__, call_isatty. simpl. by rewrite Hb. Qed.

Lemma get_COLOURS_mapped :
  get COLOURS DEBUG [] = ESC :: lit "[36m" /\
  get COLOURS WARNING [] = ESC :: lit "[33m" /\
  get COLOURS ERROR [] = ESC :: lit "[31m" /\
  get COLOURS CRITICAL [] = ESC :: lit "[31;7m".
Proof. repeat split; vm_compute; reflexivity. Qed.

Lemma get_COLOURS_unmapped (level : Z) :
  level ∉ [DEBUG; WARNING; ERROR; CRITICAL] -> get COLOURS level [] = [].
Proof.
  intros Hnot. unfold get, COLOURS.
  rewrite !lookup_insert_ne, lookup_singleton_ne; [done|..];
    intros <-; apply Hnot; set_solver.
Qed.

Example forced_colour_constructed :
  flip setFormatter bracket_formatter
    <$> __init__ tty_env (Some regular_file) (Some true) = Ok forced_colour.
Proof. reflexivity. Qed.

Example forced_plain_constructed :
  flip setFormatter bracket_formatter
    <$> __init__ tty_env (Some tty) (Some false) = Ok forced_plain.
Proof. reflexivity. Qed.

Example auto_on_file_constructed :
  flip setFormatter bracket_formatter
    <$> __init__ tty_env (Some regular_file) None = Ok auto_on_file.
Proof. reflexivity. Qed.

Example format_unmapped_level :
  format tty_env forced_colour note_record
  = Ok (lit "[INFO] note" ++ ESC :: lit "[0m").
Proof. vm_compute. reflexivity. Qed.

Example format_formatter_raises :
  format tty_env
    (setFormatter forced_colour (fun _ => Raise (FormatError "not all arguments converted")))
    boom_record
  = Raise (FormatError "not all arguments converted").
Proof. reflexivity. Qed.

(** C1: with the colour flag enabled, [format(record)] is the code the
    colour mapping holds for the record's level (the empty string when the
    level has no entry), then the text of the delegated formatter, then the
    reset code; the reset code is there whether or not the level is
    mapped. *)
Theorem format_coloured env self record text :
  colour self = true ->
  Handler_format env (super self) record = Ok text ->
  format env self record
  = Ok (default [] (COLOURS !! levelno record) ++ text ++ COLOUR_END).
Proof.
  intros Hcolour Hbase. unfold format. rewrite Hbase. simpl.
  by rewrite Hcolour.
Qed.

Lemma format_coloured_witness :
  format tty_env forced_colour boom_record
  = Ok (ESC :: lit "[31m[ERROR] boom" ++ ESC :: lit "[0m").
Proof.
  rewrite (format_coloured tty_env forced_colour boom_record (lit "[ERROR] boom"));
    [vm_compute; reflexivity | reflexivity | reflexivity].
Defined.

(** C3: with the colour flag disabled, [format(record)] is exactly what the
    delegated formatter gives, at every level: no colour code and no reset
    code. *)
Theorem format_plain env self record :
  colour self = false ->
  format env self record = Handler_format env (super self) record.
Proof.
  intros Hcolour. unfold format.
  destruct (Handler_format env (super self) record) as [text|e]; simpl;
    [by rewrite Hcolour | reflexivity].
Qed.

Lemma format_plain_witness :
  format tty_env forced_plain boom_record = Ok (lit "[ERROR] boom") /\
  format tty_env auto_on_file boom_record = Ok (lit "[ERROR] boom").
Proof.
  split.
  - rewrite (format_plain tty_env forced_plain boom_record); reflexivity.
  - rewrite (format_plain tty_env auto_on_file boom_record); reflexivity.
Defined.

(** C4: constructed without a colour override, the handler asks its stream
    (the given one, or [sys.stderr]) whether it is a terminal, and the
    colour flag is the answer: enabled exactly when the stream says it is a
    terminal. *)
Theorem init_auto_follows_isatty env stream (b : bool) :
  isatty (default (sys_stderr env) stream) = Some b ->
  exists self,
    __init__ env stream None = Ok self /\
    logging.stream (super self) = default (sys_stderr env) stream /\
    colour self = b /\
    (colour self = true <-> isatty (logging.stream (super self)) = Some true).
Proof.
  intros Hb. eexists. split; [by apply init_auto|]. simpl. rewrite Hb.
  repeat split; [by intros -> | by intros [= ->]].
Qed.

Lemma init_auto_follows_isatty_witness :
  (exists self, __init__ tty_env (Some regular_file) None = Ok self /\
                colour self = false) /\
  (exists self, __init__ tty_env None None = Ok self /\ colour self = true).
Proof.
  split.
  - destruct (init_auto_follows_isatty tty_env (Some regular_file) false eq_refl)
      as (self & Hinit & _ & Hcolour & _).
    exists self. split; assumption.
  - destruct (init_auto_follows_isatty tty_env None true eq_refl)
      as (self & Hinit & _ & Hcolour & _).
    exists self. split; assumption.
Defined.

(** C5, as the specification has it, fails: in auto mode a stream without
    [isatty] does not give a handler with colour disabled. *)
Lemma init_auto_bare_writer_no_handler :
  ~ exists self,
      __init__ tty_env (Some bare_writer) None = Ok self /\ colour self = false.
Proof. intros (self & Hinit & _). discriminate Hinit. Qed.

(** C5, amended: in auto mode a stream without [isatty] makes the
    construction raise [AttributeError], and no handler is made; with an
    explicit override the same stream is accepted and the override is the
    colour flag. *)
Theorem init_auto_without_isatty_raises env stream :
  isatty (default (sys_stderr env) stream) = None ->
  __init__ env stream None = Raise (AttributeError "isatty") /\
  forall c : bool,
    __init__ env stream (Some c)
    = Ok {| super := StreamHandler_init env stream; colour := c |}.
Proof.
  intros Hnone. split; [|intros c; apply init_override].
  unfold __init__, call_isatty. simpl. by rewrite Hnone.
Qed.

Lemma init_auto_without_isatty_raises_witness :
  __init__ tty_env (Some bare_writer) None = Raise (AttributeError "isatty").
Proof.
  exact (proj1 (init_auto_without_isatty_raises tty_env (Some bare_writer) eq_refl)).
Defined.

End Handler.

(** ** The indenting adapter *)

Section Adapter.
Import logging.

Local Abbreviation adapter := IndentingLoggerAdapter.t.
Local Abbreviation level := IndentingLoggerAdapter._indent_level.
Local Abbreviation process := IndentingLoggerAdapter.process.
Local Abbreviation outdent := IndentingLoggerAdapter.outdent.
Local Abbreviation step := IndentingLoggerAdapter.step.
Local Abbreviation run := IndentingLoggerAdapter.run.

Implicit Types (self : adapter) (log : Logger) (msg : str).

Lemma process_at_depth {K} self msg (kwargs : K) (d : nat) :
  level self = Z.of_nat d ->
  process self msg kwargs = (indent msg (Z.of_nat d) indent_default_string, kwargs).
Proof. intros Hd. unfold IndentingLoggerAdapter.process. by rewrite Hd. Qed.

Lemma process_indented {K} self msg (kwargs : K) (d : nat) :
  level self = Z.of_nat d ->
  indented d msg (process self msg kwargs).1.
Proof.
  intros Hd. rewrite (process_at_depth _ _ _ d Hd). apply indent_indented.
Qed.

Lemma level_iter_indent self (k : nat) :
  level (Nat.iter k IndentingLoggerAdapter.indent self) = level self + Z.of_nat k.
Proof.
  induction k as [|k IH]; simpl; [lia|]. rewrite IH. lia.
Qed.

Lemma level_iter_outdent self (k : nat) :
  0 <= level self ->
  level (Nat.iter k outdent self) = Z.max 0 (level self - Z.of_nat k).
Proof.
  intros Hpos. induction k as [|k IH]; simpl; [lia|]. rewrite IH. lia.
Qed.

Lemma step_keeps_nonneg self (o : IndentingLoggerAdapter.op) :
  0 <= level self -> 0 <= level (step self o).
Proof. intros Hpos. destruct o; simpl; lia. Qed.

Lemma run_keeps_nonneg (ops : list IndentingLoggerAdapter.op) :
  forall self, 0 <= level self -> 0 <= level (run self ops).
Proof.
  unfold IndentingLoggerAdapter.run.
  induction ops as [|o ops IH]; intros self Hpos; simpl; [done|].
  apply IH. by apply step_keeps_nonneg.
Qed.

Example process_fresh :
  process fresh two_lines () = (two_lines, ()).
Proof. reflexivity. Qed.

Example process_after_indent :
  process (IndentingLoggerAdapter.indent fresh) two_lines ()
  = (lit "  line1" ++ [LF] ++ lit "  line2", ()).
Proof. reflexivity. Qed.

Example process_crlf_and_blank_line :
  process (IndentingLoggerAdapter.indent fresh)
    (lit "a" ++ [CR; LF; LF] ++ lit "b" ++ [LF]) ()
  = (lit "  a" ++ [CR; LF] ++ lit "  " ++ [LF] ++ lit "  b" ++ [LF], ()).
Proof. reflexivity. Qed.

Example warning_through_adapter :
  IndentingLoggerAdapter.warning (IndentingLoggerAdapter.indent fresh)
    two_lines () ()
  = Some {| call_level := WARNING;
            call_msg := lit "  line1" ++ [LF] ++ lit "  line2";
            call_args := (); call_kwargs := () |}.
Proof. reflexivity. Qed.

(** C2: at depth [d], [process(msg, kwargs)] gives the message with [d]
    copies of the two-space unit before each of its lines, every line with
    its line break kept, and [kwargs] with it.  The lines [ls] are the ones
    the message has ([lines], which fixes them: [lines_functional]), and
    put together again they are the message. *)
Theorem process_indents_every_line {K} log (d : nat) msg (kwargs : K) :
  exists ls,
    lines msg ls /\
    concat ls = msg /\
    process {| IndentingLoggerAdapter.logger := log;
               IndentingLoggerAdapter._indent_level := Z.of_nat d |} msg kwargs
    = (concat ((fun line => copies d two_spaces ++ line) <$> ls), kwargs).
Proof.
  exists (splitlines true msg).
  pose proof (splitlines_lines msg) as Hlines.
  split; [done|]. split; [by apply lines_concat|].
  unfold IndentingLoggerAdapter.process, indent. simpl.
  by rewrite join_empty_sep, str_mul_copies.
Qed.

(** C6: [outdent()] at depth 0 leaves the depth at 0; at a depth above 0
    it takes exactly 1 off.  The wrapped logger stays the same. *)
Theorem outdent_floor self :
  (level self = 0 -> level (outdent self) = 0) /\
  (0 < level self -> level (outdent self) = level self - 1) /\
  IndentingLoggerAdapter.logger (outdent self) = IndentingLoggerAdapter.logger self.
Proof. simpl. repeat split; lia. Qed.

Lemma outdent_floor_witness :
  level (outdent fresh) = 0 /\
  level (outdent (Nat.iter 3 IndentingLoggerAdapter.indent fresh)) = 2.
Proof.
  split.
  - apply (proj1 (outdent_floor fresh)). reflexivity.
  - apply (proj1 (proj2 (outdent_floor (Nat.iter 3 IndentingLoggerAdapter.indent fresh)))).
    reflexivity.
Defined.

(** C7: from a fresh adapter, [n] calls of [indent()] and then [n] calls
    of [outdent()] bring the depth back to 0.  On the way up the depth
    after [k] calls is [k], on the way down after [k] calls it is [n - k],
    and at each of these points a processed message has that many copies
    of the indent unit before every line. *)
Theorem indent_outdent_balanced {K} log (n k : nat) msg (kwargs : K) :
  (k <= n)%nat ->
  let start := IndentingLoggerAdapter.__init__ log in
  let top := Nat.iter n IndentingLoggerAdapter.indent start in
  let up := Nat.iter k IndentingLoggerAdapter.indent start in
  let down := Nat.iter k outdent top in
  level up = Z.of_nat k /\
  indented k msg (process up msg kwargs).1 /\
  level down = Z.of_nat (n - k) /\
  indented (n - k) msg (process down msg kwargs).1 /\
  level (Nat.iter n outdent top) = 0.
Proof.
  intros Hk start top up down.
  assert (Hup : level up = Z.of_nat k).
  { subst up. rewrite level_iter_indent. simpl. lia. }
  assert (Htop : level top = Z.of_nat n).
  { subst top. rewrite level_iter_indent. simpl. lia. }
  assert (Hdown : level down = Z.of_nat (n - k)).
  { subst down. rewrite level_iter_outdent by lia. lia. }
  repeat split; try done.
  - by apply process_indented.
  - by apply process_indented.
  - rewrite level_iter_outdent by lia. lia.
Qed.

Lemma indent_outdent_balanced_witness :
  level (Nat.iter 2 IndentingLoggerAdapter.indent fresh) = 2 /\
  level (Nat.iter 2 outdent (Nat.iter 3 IndentingLoggerAdapter.indent fresh)) = 1 /\
  level (Nat.iter 3 outdent (Nat.iter 3 IndentingLoggerAdapter.indent fresh)) = 0.
Proof.
  assert (Hk : (2 <= 3)%nat) by lia.
  destruct (indent_outdent_balanced any_logger 3 2 two_lines () Hk)
    as (Hup & _ & Hdown & _ & Hend).
  repeat split; assumption.
Defined.

(** C8: [process] hands back the [kwargs] it was given, and a logging
    call through the adapter reaches the wrapped logger at the level the
    caller named, with the caller's arguments and options; only the message
    text is the processed one.  The severity methods log at their own
    level. *)
Theorem process_keeps_kwargs_and_level {A K} self (lvl : Z) msg (args : A)
    (kwargs : K) :
  (process self msg kwargs).2 = kwargs /\
  IndentingLoggerAdapter.log self lvl msg args kwargs
  = (if isEnabledFor (IndentingLoggerAdapter.logger self) lvl
     then Some {| call_level := lvl;
                  call_msg := (process self msg kwargs).1;
                  call_args := args;
                  call_kwargs := kwargs |}
     else None) /\
  (let sent (lvl' : Z) :=
     if isEnabledFor (IndentingLoggerAdapter.logger self) lvl'
     then Some lvl' else None in
   call_level <$> IndentingLoggerAdapter.debug self msg args kwargs = sent DEBUG /\
   call_level <$> IndentingLoggerAdapter.info self msg args kwargs = sent INFO /\
   call_level <$> IndentingLoggerAdapter.warning self msg args kwargs = sent WARNING /\
   call_level <$> IndentingLoggerAdapter.error self msg args kwargs = sent ERROR /\
   call_level <$> IndentingLoggerAdapter.critical self msg args kwargs = sent CRITICAL).
Proof.
  assert (Hlog : forall lvl',
    IndentingLoggerAdapter.log self lvl' msg args kwargs
    = (if isEnabledFor (IndentingLoggerAdapter.logger self) lvl'
       then Some {| call_level := lvl';
                    call_msg := (process self msg kwargs).1;
                    call_args := args;
                    call_kwargs := kwargs |}
       else None)).
  { intros lvl'. unfold IndentingLoggerAdapter.log, LoggerAdapter_log.
    by destruct (isEnabledFor _ lvl'). }
  split; [reflexivity|]. split; [apply Hlog|].
  unfold IndentingLoggerAdapter.debug, IndentingLoggerAdapter.info,
    IndentingLoggerAdapter.warning, IndentingLoggerAdapter.error,
    IndentingLoggerAdapter.critical.
  rewrite !Hlog. simpl.
  repeat split; by destruct (isEnabledFor _ _).
Qed.

(** C9: the depth of an adapter is never negative: it is 0 when the
    adapter is made, each of [indent], [outdent] and [process] takes an
    adapter of depth at least 0 to one of depth at least 0, and so the
    depth is at least 0 after any sequence of them. *)
Theorem depth_never_negative log self (o : IndentingLoggerAdapter.op)
    (ops : list IndentingLoggerAdapter.op) :
  0 <= level self ->
  level (IndentingLoggerAdapter.__init__ log) = 0 /\
  0 <= level (step self o) /\
  0 <= level (run self ops) /\
  0 <= level (run (IndentingLoggerAdapter.__init__ log) ops).
Proof.
  intros Hpos. split; [reflexivity|].
  split; [by apply step_keeps_nonneg|].
  split; apply run_keeps_nonneg; [done | simpl; lia].
Qed.

Lemma depth_never_negative_witness :
  0 <= level (run fresh
                [IndentingLoggerAdapter.OpOutdent;
                 IndentingLoggerAdapter.OpIndent;
                 IndentingLoggerAdapter.OpProcess two_lines;
                 IndentingLoggerAdapter.OpOutdent;
                 IndentingLoggerAdapter.OpOutdent]).
Proof.
  assert (Hfresh : 0 <= level fresh) by (simpl; lia).
  exact (proj1 (proj2 (proj2
    (depth_never_negative any_logger fresh IndentingLoggerAdapter.OpIndent
       [IndentingLoggerAdapter.OpOutdent;
        IndentingLoggerAdapter.OpIndent;
        IndentingLoggerAdapter.OpProcess two_lines;
        IndentingLoggerAdapter.OpOutdent;
        IndentingLoggerAdapter.OpOutdent] Hfresh)))).
Defined.

(** C10: the empty message has no line, so at every depth [process]
    gives the empty string back, with no indent in it. *)
Theorem process_empty_message {K} self (kwargs : K) :
  splitlines true [] = [] /\
  process self [] kwargs = ([], kwargs).
Proof.
  split; [reflexivity|].
  unfold IndentingLoggerAdapter.process, indent, splitlines.
  simpl. reflexivity.
Qed.

End Adapter.

(** ** The module-level [indent], for any amount and indent string *)

Section Indent.

Implicit Types (data string line : str) (amount : Z).

Lemma indent_eq data amount string :
  indent data amount string
  = concat ((fun line => str_mul string amount ++ line) <$> splitlines true data).
Proof. unfold indent. apply join_empty_sep. Qed.

Lemma concat_splitlines data : concat (splitlines true data) = data.
Proof. apply lines_concat, splitlines_lines. Qed.

Lemma no_break_app (a b : str) : no_break a -> no_break b -> no_break (a ++ b).
Proof. intros Ha Hb. apply Forall_app. by split. Qed.

Lemma no_break_str_mul string amount : no_break string -> no_break (str_mul string amount).
Proof.
  intros Hs. unfold str_mul.
  induction (Z.to_nat amount) as [|n IH]; simpl; [constructor|].
  by apply no_break_app.
Qed.

Lemma str_mul_add string (a b : Z) :
  0 <= a -> 0 <= b -> str_mul string (a + b) = str_mul string b ++ str_mul string a.
Proof.
  intros Ha Hb. unfold str_mul.
  replace (Z.to_nat (a + b)) with (Z.to_nat b + Z.to_nat a)%nat by lia.
  by rewrite replicate_add, concat_app.
Qed.


(** Putting a prefix without line boundaries before every line of a text
    gives a text with these very lines. *)
Lemma lines_prefixed (p : str) (msg : str) (ls : list str) :
  no_break p -> lines msg ls ->
  lines (concat ((fun line => p ++ line) <$> ls)) ((fun line => p ++ line) <$> ls).
Proof.
  intros Hp Hlines. destruct p as [|c p].
  { rewrite (list_fmap_ext _ id ls) by done.
    rewrite list_fmap_id. by rewrite (lines_concat _ _ Hlines). }
  assert (Hc : is_linebreak c = false) by (by inversion Hp).
  induction Hlines as [|body Hne Hbody|body e rest ls Hbody He Hcr Hrest IH].
  - constructor.
  - simpl. rewrite app_nil_r.
    apply (lines_last (c :: p ++ body)); [done | by apply (no_break_app (c :: p))].
  - rewrite fmap_cons. cbn [concat].
    rewrite (app_assoc (c :: p) body e), <- (app_assoc ((c :: p) ++ body) e).
    apply lines_cons; [by apply no_break_app | done | | done].
    intros _. destruct ls as [|l ls]; [done|].
    simpl. intros [= ->]. discriminate Hc.
Qed.



Lemma splitlines_indent data amount string :
  no_break string ->
  splitlines true (indent data amount string)
  = (fun line => str_mul string amount ++ line) <$> splitlines true data.
Proof.
  intros Hs. rewrite indent_eq. symmetry. apply lines_functional.
  apply (lines_prefixed _ data); [by apply no_break_str_mul | apply splitlines_lines].
Qed.

(** X2: when the indent string holds no line boundary, the indented text
    has exactly the lines of the text, each behind the prefix: [indent]
    neither joins nor splits lines, and the number of lines stays. *)
Theorem indent_keeps_lines data amount string :
  no_break string ->
  splitlines true (indent data amount string)
  = (fun line => str_mul string amount ++ line) <$> splitlines true data /\
  length (splitlines true (indent data amount string))
  = length (splitlines true data).
Proof.
  intros Hs. rewrite splitlines_indent by done. split; [done|].
  apply length_fmap.
Qed.

Lemma indent_keeps_lines_witness :
  splitlines true (indent two_lines 2 (lit "> "))
  = [lit "> > line1" ++ [LF]; lit "> > line2"].
Proof.
  apply (indent_keeps_lines two_lines 2 (lit "> ")). repeat constructor.
Defined.

(** X3: indenting by [a] and then by [b] with the same indent string (one
    without line boundaries) is indenting by [a + b], for amounts of 0 or
    more. *)
Theorem indent_indent data (a b : Z) string :
  0 <= a -> 0 <= b -> no_break string ->
  indent (indent data a string) b string = indent data (a + b) string.
Proof.
  intros Ha Hb Hs.
  rewrite (indent_eq (indent data a string)), splitlines_indent by done.
  rewrite (indent_eq data (a + b)), <- list_fmap_compose. f_equal.
  apply list_fmap_ext. intros _ line _. simpl.
  by rewrite str_mul_add, <- app_assoc.
Qed.

Lemma indent_indent_witness :
  indent (indent two_lines 1 (lit "  ")) 2 (lit "  ")
  = lit "      line1" ++ [LF] ++ lit "      line2".
Proof.
  rewrite (indent_indent two_lines 1 2 (lit "  "));
    [reflexivity | lia | lia | repeat constructor].
Defined.

(** X4: with an indent string without line boundaries, different texts
    indent to different texts: [indent] loses nothing of the text. *)
Theorem indent_injective data data' amount string :
  no_break string ->
  data <> data' ->
  indent data amount string <> indent data' amount string.
Proof.
  intros Hs Hne Heq. apply Hne. apply (f_equal (splitlines true)) in Heq.
  rewrite !splitlines_indent in Heq by done.
  apply (inj (fmap (app (str_mul string amount)))) in Heq.
  by rewrite <- (concat_splitlines data), <- (concat_splitlines data'), Heq.
Qed.

Lemma indent_injective_witness :
  indent (lit "a" ++ [LF]) 0 (lit "  ") <> indent (lit "a") 0 (lit "  ").
Proof.
  apply (indent_injective (lit "a" ++ [LF]) (lit "a") 0 (lit "  "));
    [repeat constructor | discriminate].
Defined.


Lemma splitlines_from_cons keepends (line : str) (c : codepoint) (rest : str) :
  splitlines_from keepends line (c :: rest)
  = if is_linebreak c then
      match rest with
      | c' :: rest' =>
        if (c =? CR)%N && (c' =? LF)%N
        then (line ++ (if keepends then [c; c'] else []))
               :: splitlines_from keepends [] rest'
        else (line ++ (if keepends then [c] else []))
               :: splitlines_from keepends [] rest
      | [] => [line ++ (if keepends then [c] else [])]
      end
    else splitlines_from keepends (line ++ [c]) rest.
Proof. reflexivity. Qed.

(** A text that ends in LF ends a line there, whatever comes next. *)
Lemma splitlines_from_app_LF keepends (b : str) (n : nat) :
  forall (a line : str), (length a <= n)%nat ->
    splitlines_from keepends line (a ++ LF :: b)
    = splitlines_from keepends line (a ++ [LF]) ++ splitlines_from keepends [] b.
Proof.
  induction n as [|n IH]; intros a line Hlen.
  - destruct a; [|simpl in Hlen; lia]. simpl. by destruct b.
  - destruct a as [|c a]; [apply IH; simpl; lia|].
    simpl in Hlen. cbn [app]. rewrite !(splitlines_from_cons keepends line c).
    destruct (is_linebreak c) eqn:Hc; [|apply IH; lia].
    destruct a as [|c' a]; cbn [app].
    + simpl. destruct (c =? CR)%N; simpl; [reflexivity|]. by destruct b.
    + destruct ((c =? CR)%N && (c' =? LF)%N); cbn [app]; f_equal.
      * apply IH. simpl in Hlen. lia.
      * apply (IH (c' :: a)). simpl in *. lia.
Qed.

(** X6: [indent] works on a text part by part when the parts end in LF:
    a text cut after an LF indents to the indented parts put together. *)
Theorem indent_app_LF (a b : str) amount string :
  indent ((a ++ [LF]) ++ b) amount string
  = indent (a ++ [LF]) amount string ++ indent b amount string.
Proof.
  rewrite !indent_eq. unfold splitlines.
  rewrite <- app_assoc. simpl.
  rewrite (splitlines_from_app_LF true b (length a) a []) by lia.
  by rewrite fmap_app, concat_app.
Qed.

(** X7: a text that is one line (a body without line boundaries that is
    not empty, or such a body with its line break) indents to the prefix
    and the text; so a line that is nothing but its line break gets the
    prefix too. *)
Theorem indent_one_line (body e : str) amount string :
  no_break body ->
  (e = [] /\ body <> []) \/ line_end e ->
  indent (body ++ e) amount string = str_mul string amount ++ body ++ e.
Proof.
  intros Hbody He. rewrite indent_eq.
  assert (Hone : splitlines true (body ++ e) = [body ++ e]).
  { symmetry. apply lines_functional. destruct He as [[-> Hne]|He].
    - rewrite app_nil_r. by apply lines_last.
    - rewrite <- (app_nil_r e) at 1.
      apply (lines_cons body e [] []); [done | done | done | constructor]. }
  rewrite Hone. simpl. by rewrite app_nil_r.
Qed.

Lemma indent_one_line_witness :
  indent [LF] 1 (lit "  ") = lit "  " ++ [LF] /\
  indent (lit "done" ++ [CR; LF]) 2 (lit "  ") = lit "    done" ++ [CR; LF].
Proof.
  split.
  - apply (indent_one_line [] [LF] 1 (lit "  ")); [constructor|].
    right. by apply end_one.
  - apply (indent_one_line (lit "done") [CR; LF] 2 (lit "  ")); [repeat constructor|].
    right. apply end_crlf.
Defined.

End Indent.

(** ** More on the handler's [format] *)

Section HandlerMore.
Import logging PrettyStreamHandler.

(** X8: [format] raises exactly when the delegated formatter raises, and
    then with that same exception, whatever the colour flag: it adds no
    failure of its own and hides none. *)
Theorem format_raises_iff env self record (e : exn) :
  format env self record = Raise e <->
  Handler_format env (super self) record = Raise e.
Proof.
  unfold format.
  destruct (Handler_format env (super self) record) as [text|e']; simpl.
  - by destruct (colour self).
  - done.
Qed.

Lemma format_raises_iff_witness :
  format tty_env
    (setFormatter forced_colour (fun _ => Raise (FormatError "not all arguments converted")))
    boom_record
  = Raise (FormatError "not all arguments converted").
Proof.
  apply (proj2 (format_raises_iff tty_env
    (setFormatter forced_colour (fun _ => Raise (FormatError "not all arguments converted")))
    boom_record (FormatError "not all arguments converted"))).
  reflexivity.
Defined.

(** X9: with colour on, the formatted text comes out without a colour
    code (the text and the reset code alone) exactly for the levels other
    than DEBUG, WARNING, ERROR and CRITICAL; INFO is one of them. *)
Theorem format_uncoloured_iff env self record text :
  colour self = true ->
  Handler_format env (super self) record = Ok text ->
  format env self record = Ok (text ++ COLOUR_END) <->
  levelno record ∉ [DEBUG; WARNING; ERROR; CRITICAL].
Proof.
  intros Hcolour Hbase. unfold format. rewrite Hbase. simpl. rewrite Hcolour.
  split.
  - intros [= Heq]. apply (app_inv_tail _ _ []) in Heq.
    destruct get_COLOURS_mapped as (Hd & Hw & He & Hc).
    intros Hin. repeat (apply elem_of_cons in Hin as [Hin|Hin]);
      [..|by apply elem_of_nil in Hin]; rewrite Hin in Heq.
    + by rewrite Hd in Heq.
    + by rewrite Hw in Heq.
    + by rewrite He in Heq.
    + by rewrite Hc in Heq.
  - intros Hnot. by rewrite get_COLOURS_unmapped.
Qed.

Lemma format_uncoloured_iff_witness :
  format tty_env forced_colour note_record = Ok (lit "[INFO] note" ++ COLOUR_END).
Proof.
  apply (format_uncoloured_iff tty_env forced_colour note_record (lit "[INFO] note")
           eq_refl eq_refl).
  vm_compute. intros Hin.
  repeat (apply elem_of_cons in Hin as [Hin|Hin]; [discriminate Hin|]).
  by apply elem_of_nil in Hin.
Defined.

End HandlerMore.

(** ** More on the adapter's depth *)

Section AdapterMore.
Import logging.

Local Abbreviation adapter := IndentingLoggerAdapter.t.
Local Abbreviation level := IndentingLoggerAdapter._indent_level.
Local Abbreviation process := IndentingLoggerAdapter.process.
Local Abbreviation indent_ := IndentingLoggerAdapter.indent.
Local Abbreviation outdent := IndentingLoggerAdapter.outdent.
Local Abbreviation run := IndentingLoggerAdapter.run.

Implicit Types (self : adapter) (msg : str) (ops : list IndentingLoggerAdapter.op).

Lemma adapter_eq self self' :
  IndentingLoggerAdapter.logger self = IndentingLoggerAdapter.logger self' ->
  level self = level self' ->
  self = self'.
Proof. destruct self, self'; simpl; by intros -> ->. Qed.

Lemma run_app self ops ops' : run self (ops ++ ops') = run (run self ops) ops'.
Proof. unfold IndentingLoggerAdapter.run. apply foldl_app. Qed.

Lemma outdent_indent self : 0 <= level self -> outdent (indent_ self) = self.
Proof. intros Hpos. apply adapter_eq; simpl; [done | lia]. Qed.

Lemma indent_outdent self : 0 < level self -> indent_ (outdent self) = self.
Proof. intros Hpos. apply adapter_eq; simpl; [done | lia]. Qed.

Lemma process_at_floor {K} self msg (kwargs : K) :
  level self <= 0 -> process self msg kwargs = (msg, kwargs).
Proof.
  intros Hle. unfold IndentingLoggerAdapter.process. f_equal.
  rewrite indent_eq, str_mul_nonpos by done. simpl.
  rewrite (list_fmap_ext _ id (splitlines true msg)) by done.
  rewrite list_fmap_id. apply concat_splitlines.
Qed.

(** X10: [outdent()] undoes [indent()] exactly on an adapter of depth 0 or
    more, and [indent()] undoes [outdent()] exactly on an adapter of depth
    above 0: at depth 0 an [outdent()] is lost and the [indent()] after it
    leaves the adapter one level deeper than before. *)
Theorem outdent_indent_iff self :
  (outdent (indent_ self) = self <-> 0 <= level self) /\
  (indent_ (outdent self) = self <-> 0 < level self).
Proof.
  split; split.
  - intros Heq. apply (f_equal level) in Heq. simpl in Heq. lia.
  - apply outdent_indent.
  - intros Heq. apply (f_equal level) in Heq. simpl in Heq. lia.
  - apply indent_outdent.
Qed.

Lemma outdent_indent_iff_witness :
  outdent (indent_ fresh) = fresh /\ indent_ (outdent fresh) <> fresh.
Proof.
  split.
  - apply (proj2 (proj1 (outdent_indent_iff fresh))). simpl. lia.
  - intros Heq. apply (proj1 (proj2 (outdent_indent_iff fresh))) in Heq.
    simpl in Heq. lia.
Defined.

(** X11: a sequence of operations in which every [indent()] has its
    [outdent()] later on, properly nested, with [process] calls anywhere,
    leaves an adapter of depth 0 or more as it was. *)
Theorem run_balanced self ops :
  0 <= level self -> balanced ops -> run self ops = self.
Proof.
  intros Hpos Hbal. revert self Hpos.
  induction Hbal as [|msg ops _ IH|inner rest _ IHinner _ IHrest]; intros self Hpos.
  - reflexivity.
  - by apply IH.
  - change (run self (IndentingLoggerAdapter.OpIndent ::
                      inner ++ IndentingLoggerAdapter.OpOutdent :: rest))
      with (run (indent_ self) (inner ++ IndentingLoggerAdapter.OpOutdent :: rest)).
    rewrite run_app, IHinner by (simpl; lia).
    change (run (indent_ self) (IndentingLoggerAdapter.OpOutdent :: rest))
      with (run (outdent (indent_ self)) rest).
    rewrite outdent_indent by done.
    by apply IHrest.
Qed.

Lemma run_balanced_witness :
  run (indent_ fresh)
    [IndentingLoggerAdapter.OpIndent;
     IndentingLoggerAdapter.OpProcess two_lines;
     IndentingLoggerAdapter.OpIndent;
     IndentingLoggerAdapter.OpOutdent;
     IndentingLoggerAdapter.OpOutdent;
     IndentingLoggerAdapter.OpProcess two_lines]
  = indent_ fresh.
Proof.
  apply run_balanced; [simpl; lia|].
  apply (balanced_scope
           [IndentingLoggerAdapter.OpProcess two_lines;
            IndentingLoggerAdapter.OpIndent;
            IndentingLoggerAdapter.OpOutdent]
           [IndentingLoggerAdapter.OpProcess two_lines]).
  - apply balanced_process. apply (balanced_scope [] []); apply balanced_nil.
  - apply balanced_process, balanced_nil.
Defined.




(** X13: a message logged through an adapter at depth 0 (a fresh one, or
    one brought back to 0) reaches the wrapped logger as it was written,
    whatever line breaks it holds, with the caller's level, arguments and
    options. *)
Theorem log_at_depth_zero {A K} self (lvl : Z) msg (args : A) (kwargs : K) :
  level self = 0 ->
  IndentingLoggerAdapter.log self lvl msg args kwargs
  = if isEnabledFor (IndentingLoggerAdapter.logger self) lvl
    then Some {| call_level := lvl; call_msg := msg;
                 call_args := args; call_kwargs := kwargs |}
    else None.
Proof.
  intros Hzero. unfold IndentingLoggerAdapter.log, LoggerAdapter_log.
  rewrite process_at_floor by lia. reflexivity.
Qed.

Lemma log_at_depth_zero_witness :
  IndentingLoggerAdapter.log (outdent fresh) ERROR
    (lit "a" ++ [CR; LF] ++ lit "b" ++ [CR]) () ()
  = Some {| call_level := ERROR; call_msg := lit "a" ++ [CR; LF] ++ lit "b" ++ [CR];
            call_args := (); call_kwargs := () |}.
Proof.
  exact (log_at_depth_zero (outdent fresh) ERROR
           (lit "a" ++ [CR; LF] ++ lit "b" ++ [CR]) () () eq_refl).
Defined.

End AdapterMore.

(** ** The mapping-argument fix *)

Section MappingArgFix.
Import mapping_arg_fix.

Lemma tuple_compare_antisym (a b : list Z) :
  tuple_compare b a = CompOpp (tuple_compare a b).
Proof.
  revert b. induction a as [|x a IH]; intros [|y b]; simpl; try reflexivity.
  rewrite (Z.compare_antisym x y). destruct (x ?= y); simpl; [apply IH|done..].
Qed.

(** No tuple is both at or above (2, 7, 0) and below it; a string is
    below every tuple in Python 2 and not compared in Python 3. *)
Lemma version_check_eq fl v :
  version_check fl v
  = match fl, v with
    | Python3, VStr _ =>
      inl (TypeError "'<=' not supported between instances of 'tuple' and 'str'")
    | _, _ => inr false
    end.
Proof.
  destruct v as [s|t]; [by destruct fl|].
  unfold version_check, tuple_le, lt_tuple.
  rewrite (tuple_compare_antisym [2; 7; 0] t).
  generalize (tuple_compare [2; 7; 0] t). intros []; by destruct fl.
Qed.

Example apply_fix_python_2_7_6 :
  apply_mapping_arg_fix
    {| interp_flavour := Python2; interp_debug := true;
       sys_version := VStr (lit "2.7.6 (default, Nov 10 2013, 19:24:18)");
       LogRecord_init := Original |}
  = inl (AssertionError "Fix only works for Python 2.7 (fixed in 2.7.7)").
Proof. reflexivity. Qed.

(** X14: with assertions on, [apply_mapping_arg_fix()] never installs
    the constructor: whatever [sys.version] holds (the string it is, or a
    version tuple) the range from (2, 7, 0) up to but not including
    (2, 7, 0) has nothing in it, so the first assertion fails, or, in
    Python 3 with the string, the comparison itself raises.  The constructor
    is installed only where [assert] statements are dropped, and there on
    any version and any number of times. *)
Theorem apply_mapping_arg_fix_result (st : Interp) :
  apply_mapping_arg_fix st
  = if interp_debug st then
      inl (match interp_flavour st, sys_version st with
           | Python3, VStr _ =>
             TypeError "'<=' not supported between instances of 'tuple' and 'str'"
           | _, _ =>
             AssertionError "Fix only works for Python 2.7 (fixed in 2.7.7)"
           end)
    else inr (set_LogRecord_init st Patched).
Proof.
  unfold apply_mapping_arg_fix. rewrite version_check_eq.
  destruct (interp_debug st); [|reflexivity].
  by destruct (interp_flavour st), (sys_version st).
Qed.

Lemma new_init_eq {F} (other : F) (args : list object) :
  _new_LogRecord_init other args
  = {| fields := other;
       args := match args with
               | [o] => if isinstance_Mapping o && object_truth o
                        then ArgsObject o else ArgsTuple args
               | _ => ArgsTuple args
               end |}.
Proof.
  destruct args as [|[i k b] [|o' args]]; [reflexivity| |reflexivity].
  unfold _new_LogRecord_init, _old_LogRecord_init, sole_mapping.
  destruct k, b; simpl; try reflexivity.
  by rewrite Nat.eqb_refl.
Qed.

(** X15: the constructor the fix installs leaves in [args] the sole
    argument itself when that is a mapping of any kind that is not empty,
    and the tuple of arguments in every other case (no argument, several
    arguments, a sole argument that is no mapping or an empty one); the
    other attributes are the ones the original constructor sets. *)
Theorem new_init_args {F} (other : F) (args : list object) :
  fields (_new_LogRecord_init other args) = fields (_old_LogRecord_init other args) /\
  mapping_arg_fix.args (_new_LogRecord_init other args)
  = match args with
    | [o] => if isinstance_Mapping o && object_truth o
             then ArgsObject o else ArgsTuple args
    | _ => ArgsTuple args
    end.
Proof. by rewrite new_init_eq. Qed.



End MappingArgFix.
